(** * railway-service-status: the traversal client and the two protected routes

    A shallow embedding of [src/index.tsx]: the paginating
    [getRailwayServiceInfo] and the handlers of [/api/services/status] and
    [/api/service/:staticUrl/status].

    The upstream is the environment.  A run of the program is driven by the
    list of outcomes of its successive [fetch] calls (the _script_); the
    model returns, next to the completion of the function, the list of
    requests that were issued, so that "the upstream is not contacted" is a
    statement about that list. *)

From Stdlib Require Import String Ascii List ZArith Bool Lia DecimalString.
Import ListNotations.
Open Scope list_scope.
Open Scope string_scope.
Set Warnings "-register-all".

(** ** JavaScript strings *)

Module JsString.

(** [strip_prefix p s] is the rest of [s] behind [p] when [s] starts with [p]. *)
Fixpoint strip_prefix (p s : string) : option string :=
  match p with
  | EmptyString => Some s
  | String a p' =>
      match s with
      | EmptyString => None
      | String b s' => if Ascii.eqb a b then strip_prefix p' s' else None
      end
  end.

(** [s.includes(needle)] *)
Fixpoint includes (s needle : string) : bool :=
  match strip_prefix needle s with
  | Some _ => true
  | None =>
      match s with
      | EmptyString => false
      | String _ s' => includes s' needle
      end
  end.

(** [s.replace(pattern, replacement)] with a string pattern: only the first
    occurrence, wherever it stands, is replaced.  (The replacement used by
    the program is the empty string, which has no [$] patterns.) *)
Fixpoint replace (s pattern replacement : string) : string :=
  match strip_prefix pattern s with
  | Some rest => replacement ++ rest
  | None =>
      match s with
      | EmptyString => EmptyString
      | String c s' => String c (replace s' pattern replacement)
      end
  end.

(** Truthiness of a string: only the empty string is falsy. *)
Definition truthy (s : string) : bool :=
  match s with EmptyString => false | String _ _ => true end.

(** Template interpolation of an integral number. *)
Definition of_Z (z : Z) : string := NilZero.string_of_int (Z.to_int z).

End JsString.

(** ** JSON values and [JSON.stringify] *)

(** A decoded JSON value, as [response.json()] hands it over and as
    [c.json] takes it.  A number is given by the text that [JSON.stringify]
    prints for it, so that neither rounding nor exponent notation is left
    to the model; the members of an object stand in the order in which the
    object enumerates them. *)
Inductive Json : Type :=
| JNull
| JBool (b : bool)
| JNum (text : string)
| JStr (s : string)
| JArr (items : list Json)
| JObj (fields : list (string * Json)).

Module JSON.

Definition quote : ascii := "034"%char.
Definition backslash : ascii := "092"%char.

Definition hex_digit (n : N) : ascii :=
  match n with
  | 0 => "0" | 1 => "1" | 2 => "2" | 3 => "3" | 4 => "4" | 5 => "5"
  | 6 => "6" | 7 => "7" | 8 => "8" | 9 => "9" | 10 => "a" | 11 => "b"
  | 12 => "c" | 13 => "d" | 14 => "e" | _ => "f"
  end%N%char.

(** One code unit inside a quoted JSON string. *)
Definition escape_char (c : ascii) : string :=
  let n := N_of_ascii c in
  if (n =? 34)%N then String backslash (String quote EmptyString)
  else if (n =? 92)%N then String backslash (String backslash EmptyString)
  else if (n =? 8)%N then String backslash "b"
  else if (n =? 9)%N then String backslash "t"
  else if (n =? 10)%N then String backslash "n"
  else if (n =? 12)%N then String backslash "f"
  else if (n =? 13)%N then String backslash "r"
  else if (n <? 32)%N then
    String backslash
      (String "u" (String "0" (String "0"
         (String (hex_digit (n / 16)) (String (hex_digit (n mod 16)) EmptyString)))))
  else String c EmptyString.

Fixpoint escape (s : string) : string :=
  match s with
  | EmptyString => EmptyString
  | String c s' => escape_char c ++ escape s'
  end.

Definition quoted (s : string) : string :=
  String quote (escape s ++ String quote EmptyString).

(** [JSON.stringify(j)], without indentation. *)
Fixpoint stringify (j : Json) : string :=
  match j with
  | JNull => "null"
  | JBool true => "true"
  | JBool false => "false"
  | JNum text => text
  | JStr s => quoted s
  | JArr items =>
      "[" ++
      (fix elements (l : list Json) : string :=
         match l with
         | [] => EmptyString
         | x :: l' =>
             match l' with
             | [] => stringify x
             | _ :: _ => stringify x ++ "," ++ elements l'
             end
         end) items ++ "]"
  | JObj fields =>
      "{" ++
      (fix members (l : list (string * Json)) : string :=
         match l with
         | [] => EmptyString
         | (k, v) :: l' =>
             match l' with
             | [] => quoted k ++ ":" ++ stringify v
             | _ :: _ => quoted k ++ ":" ++ stringify v ++ "," ++ members l'
             end
         end) fields ++ "}"
  end.

End JSON.

(** ** The data model *)

(** [interface RailwayService]: the flat record the service hands out. *)
Record RailwayService : Type := {
  projectId : string;
  projectName : string;
  serviceId : string;
  serviceName : string;
  deploymentId : string;
  status : string;
  staticUrl : string;
  deploymentStopped : bool
}.

(** [interface GraphQLResponse].  A field that the program tests before it
    reads it is an [option] ([None]: absent or [null]); a field it reads
    without a test is plain. *)

Record Edge (A : Type) : Type := { node : A }.
Arguments node {A} _.

Record Connection (A : Type) : Type := { edges : option (list (Edge A)) }.
Arguments edges {A} _.

Module Deployment.
Record t : Type := {
  id : string;
  status : string;
  staticUrl : string;
  deploymentStopped : bool
}.
End Deployment.

Module ServiceInstance.
Record t : Type := { latestDeployment : option Deployment.t }.
End ServiceInstance.

Module Service.
Record t : Type := {
  id : string;
  name : string;
  serviceInstances : option (Connection ServiceInstance.t)
}.
End Service.

Module Project.
Record t : Type := {
  id : string;
  name : string;
  services : option (Connection Service.t)
}.
End Project.

Module PageInfo.
Record t : Type := {
  hasNextPage : option bool;
  endCursor : option string
}.
End PageInfo.

Module Projects.
Record t : Type := {
  edges : option (list (Edge Project.t));
  pageInfo : PageInfo.t
}.
End Projects.

Module Data.
Record t : Type := { projects : Projects.t }.
End Data.

(** The [errors] member is kept as it was received: the interface declares
    an array of objects with a [message] and optional [locations], but the
    cast of line 136 checks nothing and line 139 serialises the array as it
    is, so every element is the JSON value that came, with all its members
    (such as [extensions] and [path]). *)
Module GraphQLResponse.
Record t : Type := {
  data : option Data.t;
  errors : option (list Json)
}.
End GraphQLResponse.

(** ** The upstream, as the program sees it *)

Module Request.
(** One [fetch] of the traversal: a POST to [url] with the caller's token
    in the [Authorization] header and the cursor as the [after] variable
    of the (constant) query. *)
Record t : Type := {
  url : string;
  authorization : string;
  after : option string
}.
End Request.

Module Response.
(** A settled [fetch]: [ok], [status] and [statusText] of the response,
    what [response.text()] reads, and what [response.json()] gives: the
    decoded body, or the message of the [SyntaxError] it throws. *)
Record t : Type := {
  ok : bool;
  status : Z;
  statusText : string;
  text : string;
  json : string + GraphQLResponse.t
}.
End Response.

(** The outcome of one [await fetch(...)]: the promise rejects (with a
    [TypeError] whose message the runtime chooses) or resolves. *)
Inductive FetchResult : Type :=
| Rejected (message : string)
| Resolved (response : Response.t).

(** A thrown value.  All the values this program can see thrown are
    instances of [Error]. *)
Record JsError : Type := { name : string; message : string }.

Definition instanceof_Error (e : JsError) : bool := true.

(** How an [async] function stands once the script is used up: it returned,
    it threw, or it still awaits a [fetch] that the script does not answer. *)
Inductive Completion (A : Type) : Type :=
| Returned (a : A)
| Threw (e : JsError)
| Pending.
Arguments Returned {A} _.
Arguments Threw {A} _.
Arguments Pending {A}.

(** ** [getRailwayServiceInfo] *)

Definition graphqlEndpoint : string := "https://backboard.railway.app/graphql/v2".

Definition request (apiToken : string) (afterCursor : option string) : Request.t :=
  {| Request.url := graphqlEndpoint;
     Request.authorization := "Bearer " ++ apiToken;
     Request.after := afterCursor |}.

(** The object pushed at lines 165-174. *)
Definition record_of (project : Project.t) (service : Service.t)
    (deployment : Deployment.t) : RailwayService :=
  {| projectId := Project.id project;
     projectName := Project.name project;
     serviceId := Service.id service;
     serviceName := Service.name service;
     deploymentId := Deployment.id deployment;
     status := Deployment.status deployment;
     staticUrl := Deployment.staticUrl deployment;
     deploymentStopped := Deployment.deploymentStopped deployment |}.

(** Body of the inner [for (const serviceEdge of project.services.edges)]. *)
Definition visit_service (project : Project.t) (allServices : list RailwayService)
    (serviceEdge : Edge Service.t) : list RailwayService :=
  let service := node serviceEdge in
  match Service.serviceInstances service with
  | None => allServices
  | Some serviceInstances =>
      match edges serviceInstances with
      | None => allServices
      | Some [] => allServices
      | Some (first :: _) =>
          match ServiceInstance.latestDeployment (node first) with
          | Some deployment =>
              (allServices ++ [record_of project service deployment])%list
          | None => allServices
          end
      end
  end.

(** Body of the outer [for (const projectEdge of projects)]. *)
Definition visit_project (allServices : list RailwayService)
    (projectEdge : Edge Project.t) : list RailwayService :=
  let project := node projectEdge in
  match Project.services project with
  | None => allServices
  | Some services =>
      match edges services with
      | None => allServices
      | Some serviceEdges => fold_left (visit_service project) serviceEdges allServices
      end
  end.

(** How one turn of the [while] loop ends. *)
Inductive Iteration : Type :=
| Throws (e : JsError)
| Breaks
| Continues (allServices : list RailwayService) (hasNextPage : bool)
    (afterCursor : option string).

(** [a ?? b] *)
Definition nullish {A : Type} (a : option A) (b : A) : A :=
  match a with Some x => x | None => b end.

(** [data.data?.projects.edges] *)
Definition projects_of (data : GraphQLResponse.t) : option (list (Edge Project.t)) :=
  match GraphQLResponse.data data with
  | Some d => Projects.edges (Data.projects d)
  | None => None
  end.

(** [data.data?.projects.pageInfo.hasNextPage] and [....endCursor] *)
Definition hasNextPage_of (data : GraphQLResponse.t) : option bool :=
  match GraphQLResponse.data data with
  | Some d => PageInfo.hasNextPage (Projects.pageInfo (Data.projects d))
  | None => None
  end.

Definition endCursor_of (data : GraphQLResponse.t) : option string :=
  match GraphQLResponse.data data with
  | Some d => PageInfo.endCursor (Projects.pageInfo (Data.projects d))
  | None => None
  end.

Definition request_failed_message (response : Response.t) : string :=
  "GraphQL request failed: " ++ JsString.of_Z (Response.status response) ++ " "
    ++ Response.statusText response ++ ", " ++ Response.text response.

Definition graphql_errors_message (errors : list Json) : string :=
  "GraphQL errors: " ++ JSON.stringify (JArr errors).

(** Lines 122-184: the [try] block of one turn, given what the [fetch]
    settled to.  The [catch] logs and rethrows, so a throw is a throw. *)
Definition loop_body (fetched : FetchResult) (allServices : list RailwayService)
    : Iteration :=
  match fetched with
  | Rejected msg => Throws {| name := "TypeError"; message := msg |}
  | Resolved response =>
      if negb (Response.ok response) then
        Throws {| name := "Error"; message := request_failed_message response |}
      else
        match Response.json response with
        | inl msg => Throws {| name := "SyntaxError"; message := msg |}
        | inr data =>
            match GraphQLResponse.errors data with
            | Some errors =>
                Throws {| name := "Error"; message := graphql_errors_message errors |}
            | None =>
                match projects_of data with
                | None => Breaks
                | Some [] => Breaks
                | Some projects =>
                    Continues (fold_left visit_project projects allServices)
                      (nullish (hasNextPage_of data) false)
                      (match endCursor_of data with
                       | Some endCursor => Some endCursor
                       | None => None
                       end)
                end
            end
        end
  end.

(** Lines 80-187: [while (hasNextPage) { ... } return allServices], run
    against the script; [sent] collects the requests issued so far. *)
Fixpoint while_loop (apiToken : string) (script : list FetchResult)
    (hasNextPage : bool) (afterCursor : option string)
    (allServices : list RailwayService) (sent : list Request.t)
    : Completion (list RailwayService) * list Request.t :=
  if hasNextPage then
    let sent' := (sent ++ [request apiToken afterCursor])%list in
    match script with
    | [] => (Pending, sent')
    | fetched :: script' =>
        match loop_body fetched allServices with
        | Throws e => (Threw e, sent')
        | Breaks => (Returned allServices, sent')
        | Continues allServices' hasNextPage' afterCursor' =>
            while_loop apiToken script' hasNextPage' afterCursor' allServices' sent'
        end
    end
  else (Returned allServices, sent).

Definition getRailwayServiceInfo (apiToken : string) (script : list FetchResult)
    : Completion (list RailwayService) * list Request.t :=
  while_loop apiToken script true None [] [].

(** ** The route layer *)

Record HttpResponse : Type := { code : Z; body : Json }.

(** [c.json(object, status)]; the status is 200 when none is given. *)
Definition c_json (object : Json) (status : option Z) : HttpResponse :=
  {| code := nullish status 200%Z; body := object |}.

Definition error_body (msg : string) : Json := JObj [("error", JStr msg)].

Definition service_json (s : RailwayService) : Json :=
  JObj [("projectId", JStr (projectId s));
        ("projectName", JStr (projectName s));
        ("serviceId", JStr (serviceId s));
        ("serviceName", JStr (serviceName s));
        ("deploymentId", JStr (deploymentId s));
        ("status", JStr (status s));
        ("staticUrl", JStr (staticUrl s));
        ("deploymentStopped", JBool (deploymentStopped s))].

Definition status_json (s : RailwayService) : Json :=
  JObj [("serviceName", JStr (serviceName s)); ("status", JStr (status s))].

(** [c.req.header("Authorization")?.replace("Bearer ", empty)], where
    [empty] is the empty string. *)
Definition apiToken_of (authorization : option string) : option string :=
  option_map (fun h => JsString.replace h "Bearer " EmptyString) authorization.

(** [!x] for an optional string: absent and empty are both falsy. *)
Definition falsy (x : option string) : bool :=
  match x with
  | None => true
  | Some s => negb (JsString.truthy s)
  end.

(** The [catch] clause shared by the two handlers. *)
Definition on_error (error : JsError) : HttpResponse :=
  if instanceof_Error error
     && JsString.includes (message error) "GraphQL request failed"
  then c_json (error_body "Failed to fetch from Railway API") (Some 502%Z)
  else c_json (error_body "Internal Server Error") (Some 500%Z).

(** [app.get("/api/services/status", ...)].  The response is [None] while
    the handler still awaits the upstream. *)
Definition services_status (authorization : option string)
    (script : list FetchResult) : option HttpResponse * list Request.t :=
  let apiToken := apiToken_of authorization in
  if falsy apiToken then
    (Some (c_json (error_body "Unauthorized: API token is required") (Some 401%Z)), [])
  else
    match getRailwayServiceInfo (nullish apiToken EmptyString) script with
    | (Returned services, sent) =>
        (Some (c_json (JArr (map service_json services)) None), sent)
    | (Threw error, sent) => (Some (on_error error), sent)
    | (Pending, sent) => (None, sent)
    end.

(** [services.find((s) => s.staticUrl === staticUrl)] *)
Definition find_service (services : list RailwayService) (url : string)
    : option RailwayService :=
  find (fun s => String.eqb (staticUrl s) url) services.

(** [app.get("/api/service/:staticUrl/status", ...)] *)
Definition service_status (authorization : option string) (param : option string)
    (script : list FetchResult) : option HttpResponse * list Request.t :=
  let apiToken := apiToken_of authorization in
  if falsy apiToken then
    (Some (c_json (error_body "Unauthorized: API token is required") (Some 401%Z)), [])
  else if falsy param then
    (Some (c_json (error_body "Bad Request: staticUrl parameter is required")
             (Some 400%Z)), [])
  else
    match getRailwayServiceInfo (nullish apiToken EmptyString) script with
    | (Returned services, sent) =>
        match find_service services (nullish param EmptyString) with
        | None =>
            (Some (c_json
                     (error_body "Not Found: Service with provided staticUrl not found")
                     (Some 404%Z)), sent)
        | Some service =>
            if negb (String.eqb (status service) "SUCCESS") then
              (Some (c_json (status_json service) None), sent)
            else
              (Some (c_json (status_json service) None), sent)
        end
    | (Threw error, sent) => (Some (on_error error), sent)
    | (Pending, sent) => (None, sent)
    end.

(** ** Header values on the way in *)

(** What [c.req.header(name)] gives is not the field value as the client
    wrote it: the runtime strips HTTP whitespace (tab, line feed, carriage
    return, space) from both ends of a field value before the program sees
    it.  [received raw] is the value the handlers get for a header sent as
    [raw]. *)

Definition http_whitespace (c : ascii) : bool :=
  let n := N_of_ascii c in
  ((n =? 9) || (n =? 10) || (n =? 13) || (n =? 32))%N.

Fixpoint trim_start (s : string) : string :=
  match s with
  | EmptyString => EmptyString
  | String c s' => if http_whitespace c then trim_start s' else s
  end.

Fixpoint trim_end (s : string) : string :=
  match s with
  | EmptyString => EmptyString
  | String c s' =>
      match trim_end s' with
      | EmptyString =>
          if http_whitespace c then EmptyString else String c EmptyString
      | String _ _ as t => String c t
      end
  end.

Definition field_value (raw : string) : string := trim_end (trim_start raw).

Definition received (raw : option string) : option string :=
  option_map field_value raw.

Fixpoint ends_with_whitespace (s : string) : bool :=
  match s with
  | EmptyString => false
  | String c s' =>
      match s' with
      | EmptyString => http_whitespace c
      | String _ _ => ends_with_whitespace s'
      end
  end.

(** ** The words of the specification *)

(** A fetch that gave a page: the call resolved with a success status, the
    body decoded, and the decoded body carries no [errors]. *)
Definition page_of (fetched : FetchResult) : option GraphQLResponse.t :=
  match fetched with
  | Rejected _ => None
  | Resolved response =>
      match Response.ok response, Response.json response with
      | true, inr data =>
          match GraphQLResponse.errors data with
          | None => Some data
          | Some _ => None
          end
      | _, _ => None
      end
  end.

(** The page holds zero projects. *)
Definition page_empty (data : GraphQLResponse.t) : Prop :=
  projects_of data = None \/ projects_of data = Some [].

(** A page behind which the traversal must go on: projects on it, and
    [hasNextPage] set. *)
Definition continuing (fetched : FetchResult) : Prop :=
  exists data, page_of fetched = Some data
               /\ ~ page_empty data /\ hasNextPage_of data = Some true.

(** A page at which the traversal must stop: no projects on it, or
    [hasNextPage] not set. *)
Definition stopping (fetched : FetchResult) : Prop :=
  exists data, page_of fetched = Some data
               /\ (page_empty data \/ hasNextPage_of data <> Some true).

(** The call failed at the transport level. *)
Definition transport_failure (fetched : FetchResult) (response : Response.t) : Prop :=
  fetched = Resolved response /\ Response.ok response = false.

(** The call succeeded at the transport level and the decoded body carries
    application-level errors. *)
Definition application_errors (fetched : FetchResult)
    (errors : list Json) : Prop :=
  exists response data,
    fetched = Resolved response /\ Response.ok response = true
    /\ Response.json response = inr data
    /\ GraphQLResponse.errors data = Some errors.

(** Section 4.1 step 5, in the words of the specification. *)

Definition first_instance (service : Service.t) : option ServiceInstance.t :=
  match Service.serviceInstances service with
  | Some instances =>
      match edges instances with
      | Some (first :: _) => Some (node first)
      | _ => None
      end
  | None => None
  end.

Definition services_in (project : Project.t) : list Service.t :=
  match Project.services project with
  | Some services =>
      match edges services with
      | Some serviceEdges => map node serviceEdges
      | None => []
      end
  | None => []
  end.

Definition service_emits (project : Project.t) (service : Service.t)
    : list RailwayService :=
  match first_instance service with
  | Some instance =>
      match ServiceInstance.latestDeployment instance with
      | Some deployment => [record_of project service deployment]
      | None => []
      end
  | None => []
  end.

Definition project_emits (project : Project.t) : list RailwayService :=
  flat_map (service_emits project) (services_in project).

Definition page_emits (projects : list (Edge Project.t)) : list RailwayService :=
  flat_map (fun projectEdge => project_emits (node projectEdge)) projects.

(** What the pages of a script emit, page after page. *)
Definition fetch_emits (fetched : FetchResult) : list RailwayService :=
  match page_of fetched with
  | Some data =>
      match projects_of data with
      | Some projects => page_emits projects
      | None => []
      end
  | None => []
  end.

Definition script_emits (script : list FetchResult) : list RailwayService :=
  flat_map fetch_emits script.

(** The two error responses of the [catch] clause. *)

Definition bad_gateway : HttpResponse :=
  {| code := 502; body := error_body "Failed to fetch from Railway API" |}.

Definition internal_error : HttpResponse :=
  {| code := 500; body := error_body "Internal Server Error" |}.

Definition unauthorized : HttpResponse :=
  {| code := 401; body := error_body "Unauthorized: API token is required" |}.

Definition not_found : HttpResponse :=
  {| code := 404;
     body := error_body "Not Found: Service with provided staticUrl not found" |}.

(** The services the upstream lists, as (project, service) pairs, and the
    records that stand for one such pair. *)

Definition project_services (project : Project.t) : list (string * string) :=
  map (fun service => (Project.id project, Service.id service)) (services_in project).

Definition page_services (projects : list (Edge Project.t)) : list (string * string) :=
  flat_map (fun projectEdge => project_services (node projectEdge)) projects.

Definition fetch_services (fetched : FetchResult) : list (string * string) :=
  match page_of fetched with
  | Some data =>
      match projects_of data with
      | Some projects => page_services projects
      | None => []
      end
  | None => []
  end.

Definition script_services (script : list FetchResult) : list (string * string) :=
  flat_map fetch_services script.

Definition is_pair (pid sid : string) (k : string * string) : bool :=
  String.eqb (fst k) pid && String.eqb (snd k) sid.

Definition records_of_service (pid sid : string) (records : list RailwayService)
    : list RailwayService :=
  filter (fun r => is_pair pid sid (projectId r, serviceId r)) records.


(** [needle] stands somewhere in [s]. *)
Definition occurs_in (needle s : string) : Prop :=
  exists before after, s = before ++ needle ++ after.

(** The fetch settled without a decoded body: the promise rejected, or the
    body of a success response did not decode; [msg] is the message of the
    error the runtime throws. *)
Definition runtime_failure (fetched : FetchResult) (msg : string) : Prop :=
  fetched = Rejected msg
  \/ exists response,
       fetched = Resolved response /\ Response.ok response = true
       /\ Response.json response = inl msg.

(** ** Sample upstream data *)

Module Sample.

Definition deployment (i s u : string) : Deployment.t :=
  {| Deployment.id := i; Deployment.status := s;
     Deployment.staticUrl := u; Deployment.deploymentStopped := false |}.

Definition instance (d : option Deployment.t) : Edge ServiceInstance.t :=
  {| node := {| ServiceInstance.latestDeployment := d |} |}.

Definition service (i : string) (ds : list (option Deployment.t)) : Edge Service.t :=
  {| node := {| Service.id := i; Service.name := "svc-" ++ i;
                Service.serviceInstances :=
                  Some {| edges := Some (map instance ds) |} |} |}.

Definition project (i : string) (ss : list (Edge Service.t)) : Edge Project.t :=
  {| node := {| Project.id := i; Project.name := "prj-" ++ i;
                Project.services := Some {| edges := Some ss |} |} |}.

Definition body (ps : list (Edge Project.t)) (h : option bool) (c : option string)
    : GraphQLResponse.t :=
  {| GraphQLResponse.data :=
       Some {| Data.projects :=
                 {| Projects.edges := Some ps;
                    Projects.pageInfo :=
                      {| PageInfo.hasNextPage := h; PageInfo.endCursor := c |} |} |};
     GraphQLResponse.errors := None |}.

Definition ok_response (data : GraphQLResponse.t) : FetchResult :=
  Resolved {| Response.ok := true; Response.status := 200;
              Response.statusText := "OK"; Response.text := EmptyString;
              Response.json := inr data |}.

Definition page (ps : list (Edge Project.t)) (h : option bool) (c : option string)
    : FetchResult :=
  ok_response (body ps h c).

Definition status500 : Response.t :=
  {| Response.ok := false; Response.status := 500;
     Response.statusText := "Internal Server Error"; Response.text := "boom";
     Response.json := inl "Unexpected token" |}.

Definition errors_response (errors : list Json) : FetchResult :=
  ok_response {| GraphQLResponse.data := None;
                 GraphQLResponse.errors := Some errors |}.

(** An error object with a [message] only. *)
Definition error (msg : string) : Json := JObj [("message", JStr msg)].

(** An error object as the upstream sends them, with [locations], [path]
    and [extensions] beside the [message]. *)
Definition full_error (msg code : string) : Json :=
  JObj [("message", JStr msg);
        ("locations", JArr [JObj [("line", JNum "3"); ("column", JNum "14")]]);
        ("path", JArr [JStr "projects"]);
        ("extensions", JObj [("code", JStr code)])].

Definition d1 : Deployment.t := deployment "d1" "SUCCESS" "a.up.railway.app".
Definition d2 : Deployment.t := deployment "d2" "CRASHED" "b.up.railway.app".

(** One project; of its four services only the first has a deployment on
    its first instance. *)
Definition page1 : FetchResult :=
  page [project "p1" [service "s1" [Some d1; None];
                      service "s2" [None; Some d1];
                      service "s3" [];
                      {| node := {| Service.id := "s4"; Service.name := "svc-s4";
                                    Service.serviceInstances := None |} |}];
        {| node := {| Project.id := "p0"; Project.name := "prj-p0";
                      Project.services := None |} |}]
       (Some true) (Some "c1").

Definition page2 : FetchResult :=
  page [project "p2" [service "s1" [Some d2]]] (Some false) None.

Definition empty_page : FetchResult := page [] (Some true) (Some "c9").




(** A success response whose body carries a page of data beside an empty
    [errors] array. *)
Definition body_empty_errors : GraphQLResponse.t :=
  {| GraphQLResponse.data :=
       GraphQLResponse.data
         (body [project "p2" [service "s1" [Some d2]]] (Some false) None);
     GraphQLResponse.errors := Some [] |}.

Definition data_and_no_errors : Response.t :=
  {| Response.ok := true; Response.status := 200;
     Response.statusText := "OK"; Response.text := EmptyString;
     Response.json := inr body_empty_errors |}.

Definition record1 : RailwayService :=
  {| projectId := "p1"; projectName := "prj-p1";
     serviceId := "s1"; serviceName := "svc-s1";
     deploymentId := "d1"; status := "SUCCESS";
     staticUrl := "a.up.railway.app"; deploymentStopped := false |}.

Definition record2 : RailwayService :=
  {| projectId := "p2"; projectName := "prj-p2";
     serviceId := "s1"; serviceName := "svc-s1";
     deploymentId := "d2"; status := "CRASHED";
     staticUrl := "b.up.railway.app"; deploymentStopped := false |}.

End Sample.

(** * Theorems *)

(** ** Strings *)

Lemma strip_prefix_app (p s : string) : JsString.strip_prefix p (p ++ s) = Some s.
Proof.
  induction p as [|a p IH]; simpl; [reflexivity|].
  rewrite Ascii.eqb_refl. exact IH.
Qed.

Lemma strip_prefix_Some (p s rest : string) :
  JsString.strip_prefix p s = Some rest -> s = p ++ rest.
Proof.
  revert s. induction p as [|a p IH]; intros s H; simpl in *.
  - congruence.
  - destruct s as [|b s]; [discriminate|].
    destruct (Ascii.eqb a b) eqn:E; [|discriminate].
    apply Ascii.eqb_eq in E. subst b. f_equal. apply IH, H.
Qed.

Lemma includes_prefix (p s : string) : JsString.includes (p ++ s) p = true.
Proof.
  destruct (p ++ s) eqn:E; simpl; rewrite <- E, strip_prefix_app; reflexivity.
Qed.

(** The only header values that the replacement of "Bearer " empties. *)
Lemma replace_Bearer_empty (h : string) :
  JsString.replace h "Bearer " EmptyString = EmptyString
  <-> h = EmptyString \/ h = "Bearer ".
Proof.
  split.
  - destruct h as [|c h]; [now left|]. intros H. right.
    cbn [JsString.replace] in H.
    destruct (JsString.strip_prefix "Bearer " (String c h)) eqn:E.
    + apply strip_prefix_Some in E. simpl in H. subst s. exact E.
    + discriminate.
  - intros [-> | ->]; reflexivity.
Qed.

(** ** Flattening one page *)

Lemma visit_service_emits (project : Project.t) (allServices : list RailwayService)
    (serviceEdge : Edge Service.t) :
  visit_service project allServices serviceEdge
  = (allServices ++ service_emits project (node serviceEdge))%list.
Proof.
  unfold visit_service, service_emits, first_instance.
  destruct (Service.serviceInstances (node serviceEdge)) as [instances|];
    [|now rewrite app_nil_r].
  destruct (edges instances) as [[|first others]|]; try now rewrite app_nil_r.
  destruct (ServiceInstance.latestDeployment (node first));
    [reflexivity | now rewrite app_nil_r].
Qed.

Lemma fold_visit_service (project : Project.t) (serviceEdges : list (Edge Service.t)) :
  forall allServices,
    fold_left (visit_service project) serviceEdges allServices
    = (allServices ++ flat_map (service_emits project) (map node serviceEdges))%list.
Proof.
  induction serviceEdges as [|e es IH]; intros acc; simpl.
  - now rewrite app_nil_r.
  - rewrite IH, visit_service_emits, <- app_assoc. reflexivity.
Qed.

Lemma visit_project_emits (allServices : list RailwayService)
    (projectEdge : Edge Project.t) :
  visit_project allServices projectEdge
  = (allServices ++ project_emits (node projectEdge))%list.
Proof.
  unfold visit_project, project_emits, services_in.
  destruct (Project.services (node projectEdge)) as [services|];
    [|now rewrite app_nil_r].
  destruct (edges services) as [serviceEdges|]; [|now rewrite app_nil_r].
  apply fold_visit_service.
Qed.

Lemma fold_visit_project (projects : list (Edge Project.t)) :
  forall allServices,
    fold_left visit_project projects allServices
    = (allServices ++ page_emits projects)%list.
Proof.
  induction projects as [|e es IH]; intros acc; simpl.
  - now rewrite app_nil_r.
  - rewrite IH, visit_project_emits, <- app_assoc. reflexivity.
Qed.

(** What the loop body does with a page. *)
Lemma loop_body_page (fetched : FetchResult) (data : GraphQLResponse.t)
    (allServices : list RailwayService) :
  page_of fetched = Some data ->
  loop_body fetched allServices =
    match projects_of data with
    | None | Some [] => Breaks
    | Some projects =>
        Continues (allServices ++ page_emits projects)%list
          (nullish (hasNextPage_of data) false) (endCursor_of data)
    end.
Proof.
  unfold page_of, loop_body. destruct fetched as [msg|response]; [discriminate|].
  destruct (Response.ok response); [|discriminate].
  destruct (Response.json response) as [msg|data']; [discriminate|].
  destruct (GraphQLResponse.errors data'); [discriminate|].
  intros [= ->]. simpl.
  destruct (projects_of data) as [[|p ps]|]; try reflexivity.
  rewrite fold_visit_project. now destruct (endCursor_of data).
Qed.



(** ** The pagination loop *)

Lemma loop_body_no_page (fetched : FetchResult) (allServices : list RailwayService) :
  page_of fetched = None -> exists e, loop_body fetched allServices = Throws e.
Proof.
  unfold page_of, loop_body. destruct fetched as [msg|response]; [eauto|].
  destruct (Response.ok response); simpl; [|eauto].
  destruct (Response.json response) as [msg|data]; [eauto|].
  destruct (GraphQLResponse.errors data); [eauto | discriminate].
Qed.

Section Loop.

Variable apiToken : string.

Lemma while_loop_done script afterCursor allServices sent :
  while_loop apiToken script false afterCursor allServices sent
  = (Returned allServices, sent).
Proof. destruct script; reflexivity. Qed.

Lemma page_empty_dec (data : GraphQLResponse.t) : page_empty data \/ ~ page_empty data.
Proof.
  unfold page_empty. destruct (projects_of data) as [[|p ps]|]; auto;
    right; intros [H|H]; discriminate.
Qed.

(** Every fetch is a failure, a stopping page or a continuing page. *)
Lemma fetch_cases (fetched : FetchResult) :
  page_of fetched = None \/ stopping fetched \/ continuing fetched.
Proof.
  destruct (page_of fetched) as [data|] eqn:Hpage; [right | now left].
  destruct (page_empty_dec data) as [He|He].
  - left. exists data. auto.
  - destruct (hasNextPage_of data) as [[|]|] eqn:Hn.
    + right. exists data. auto.
    + left. exists data. repeat split; auto. right. congruence.
    + left. exists data. repeat split; auto. right. congruence.
Qed.

Lemma continuing_step fetched script afterCursor allServices sent :
  continuing fetched ->
  exists afterCursor',
    while_loop apiToken (fetched :: script) true afterCursor allServices sent
    = while_loop apiToken script true afterCursor'
        (allServices ++ fetch_emits fetched)%list
        (sent ++ [request apiToken afterCursor])%list.
Proof.
  intros (data & Hpage & Hne & Hnext). exists (endCursor_of data).
  simpl. rewrite (loop_body_page _ _ _ Hpage). unfold fetch_emits.
  rewrite Hpage. unfold page_empty in Hne.
  destruct (projects_of data) as [[|p ps]|]; try (exfalso; auto; fail).
  rewrite Hnext. reflexivity.
Qed.

Lemma stopping_step fetched script afterCursor allServices sent :
  stopping fetched ->
  while_loop apiToken (fetched :: script) true afterCursor allServices sent
  = (Returned (allServices ++ fetch_emits fetched)%list,
     (sent ++ [request apiToken afterCursor])%list).
Proof.
  intros (data & Hpage & Hstop).
  simpl. rewrite (loop_body_page _ _ _ Hpage). unfold fetch_emits.
  rewrite Hpage. unfold page_empty in Hstop.
  destruct (projects_of data) as [[|p ps]|]; try now rewrite app_nil_r.
  destruct Hstop as [[H|H]|H]; try discriminate.
  destruct (hasNextPage_of data) as [[|]|]; try congruence;
    apply while_loop_done.
Qed.

Lemma failing_step fetched script afterCursor allServices sent e :
  loop_body fetched allServices = Throws e ->
  while_loop apiToken (fetched :: script) true afterCursor allServices sent
  = (Threw e, (sent ++ [request apiToken afterCursor])%list).
Proof. intros H. simpl. now rewrite H. Qed.

(** The loop walks over a run of continuing pages, collecting what they
    emit and issuing one request for each. *)
Lemma continuing_run pre :
  Forall continuing pre ->
  forall rest afterCursor allServices sent,
  exists afterCursor' requests,
    while_loop apiToken (pre ++ rest) true afterCursor allServices sent
    = while_loop apiToken rest true afterCursor'
        (allServices ++ script_emits pre)%list (sent ++ requests)%list
    /\ length requests = length pre.
Proof.
  induction 1 as [|fetched pre Hc _ IH]; intros rest c acc sent.
  - exists c, []. now rewrite !app_nil_r.
  - destruct (continuing_step fetched (pre ++ rest) c acc sent Hc)
      as (c1 & E1).
    destruct (IH rest c1 (acc ++ fetch_emits fetched)%list
                (sent ++ [request apiToken c])%list) as (c2 & reqs & E2 & Hlen).
    exists c2, (request apiToken c :: reqs). split.
    + simpl app at 1. rewrite E1, E2. unfold script_emits. simpl flat_map.
      now rewrite <- !app_assoc.
    + simpl. now rewrite Hlen.
Qed.

(** A returning loop has walked over continuing pages up to a stopping one. *)
Lemma returned_run script :
  forall afterCursor allServices sent records sent',
    while_loop apiToken script true afterCursor allServices sent
    = (Returned records, sent') ->
    exists pre fetched rest,
      script = (pre ++ fetched :: rest)%list
      /\ Forall continuing pre /\ stopping fetched
      /\ length sent' = length sent + S (length pre)
      /\ records = (allServices ++ script_emits (pre ++ [fetched]))%list.
Proof.
  induction script as [|fetched script IH]; intros c acc sent records sent' H.
  - discriminate.
  - destruct (fetch_cases fetched) as [Hf | [Hs | Hc]].
    + destruct (loop_body_no_page fetched acc Hf) as (e & He).
      rewrite (failing_step _ _ _ _ _ _ He) in H. discriminate.
    + rewrite (stopping_step _ _ _ _ _ Hs) in H. injection H as <- <-.
      exists [], fetched, script. repeat split; auto.
      * rewrite length_app. simpl. lia.
      * unfold script_emits. simpl. now rewrite app_nil_r.
    + destruct (continuing_step fetched script c acc sent Hc) as (c1 & E1).
      rewrite E1 in H. apply IH in H.
      destruct H as (pre & f & rest & -> & Hpre & Hstop & Hlen & ->).
      exists (fetched :: pre), f, rest. repeat split; auto.
      * rewrite Hlen, length_app. simpl. lia.
      * unfold script_emits. simpl flat_map. now rewrite <- !app_assoc.
Qed.

End Loop.


Lemma Sample_page1_continuing : continuing Sample.page1.
Proof.
  eexists. split; [reflexivity|]. split; [|reflexivity].
  intros [H|H]; discriminate.
Qed.



(** ** Failures *)

Lemma loop_body_transport_failure fetched response allServices :
  transport_failure fetched response ->
  loop_body fetched allServices
  = Throws {| name := "Error"; message := request_failed_message response |}.
Proof. intros [-> Hok]. simpl. now rewrite Hok. Qed.

Lemma loop_body_application_errors fetched errors allServices :
  application_errors fetched errors ->
  loop_body fetched allServices
  = Throws {| name := "Error"; message := graphql_errors_message errors |}.
Proof.
  intros (response & data & -> & Hok & Hjson & Herr). simpl.
  now rewrite Hok, Hjson, Herr.
Qed.

(** A failure behind a run of continuing pages ends the traversal. *)
Lemma failing_run apiToken pre fetched rest e :
  Forall continuing pre ->
  (forall allServices, loop_body fetched allServices = Throws e) ->
  exists sent,
    getRailwayServiceInfo apiToken (pre ++ fetched :: rest) = (Threw e, sent)
    /\ length sent = S (length pre).
Proof.
  intros Hpre He. unfold getRailwayServiceInfo.
  destruct (continuing_run apiToken pre Hpre (fetched :: rest) None [] [])
    as (c & reqs & E & Hlen).
  rewrite E, (failing_step _ _ _ _ _ _ _ (He _)).
  eexists. split; [reflexivity|]. rewrite length_app. simpl. lia.
Qed.

Lemma falsy_token (apiToken : string) :
  apiToken <> EmptyString -> falsy (Some apiToken) = false.
Proof. destruct apiToken; [congruence | reflexivity]. Qed.

Lemma services_status_authorized authorization apiToken script :
  apiToken_of authorization = Some apiToken -> apiToken <> EmptyString ->
  services_status authorization script =
    match getRailwayServiceInfo apiToken script with
    | (Returned services, sent) =>
        (Some (c_json (JArr (map service_json services)) None), sent)
    | (Threw error, sent) => (Some (on_error error), sent)
    | (Pending, sent) => (None, sent)
    end.
Proof.
  intros Htok Hne. unfold services_status.
  now rewrite Htok, (falsy_token _ Hne).
Qed.

Lemma service_status_authorized authorization apiToken url script :
  apiToken_of authorization = Some apiToken -> apiToken <> EmptyString ->
  url <> EmptyString ->
  service_status authorization (Some url) script =
    match getRailwayServiceInfo apiToken script with
    | (Returned services, sent) =>
        match find_service services url with
        | None =>
            (Some (c_json
                     (error_body "Not Found: Service with provided staticUrl not found")
                     (Some 404%Z)), sent)
        | Some service => (Some (c_json (status_json service) None), sent)
        end
    | (Threw error, sent) => (Some (on_error error), sent)
    | (Pending, sent) => (None, sent)
    end.
Proof.
  intros Htok Hne Hurl. unfold service_status.
  rewrite Htok, (falsy_token _ Hne), (falsy_token _ Hurl). simpl nullish.
  destruct (getRailwayServiceInfo apiToken script) as [[services|e|] sent];
    try reflexivity.
  destruct (find_service services url) as [s|]; [|reflexivity].
  now destruct (negb (status s =? "SUCCESS")).
Qed.

Lemma on_error_cases (e : JsError) :
  on_error e =
    if JsString.includes (message e) "GraphQL request failed"
    then bad_gateway else internal_error.
Proof. unfold on_error. simpl. now destruct (JsString.includes _ _). Qed.

Lemma on_error_request_failed (response : Response.t) :
  on_error {| name := "Error"; message := request_failed_message response |}
  = bad_gateway.
Proof.
  rewrite on_error_cases. cbn [message]. unfold request_failed_message.
  set (tail := JsString.of_Z (Response.status response) ++ _).
  change ("GraphQL request failed: " ++ tail)
    with ("GraphQL request failed" ++ (": " ++ tail)).
  now rewrite includes_prefix.
Qed.

(** The fixed head of the message of a query failure cannot hold the text
    the handlers look for, nor its beginning. *)
Lemma includes_graphql_errors (payload : string) :
  JsString.includes ("GraphQL errors: " ++ payload) "GraphQL request failed"
  = JsString.includes payload "GraphQL request failed".
Proof. reflexivity. Qed.

(** C3.  When the call for a page fails at the transport level, or its
    decoded body carries application-level errors, the traversal completes
    by throwing (with the message of that failure) and returns no list at
    all, whatever the earlier pages had contributed; the list endpoint then
    answers with an error object, not with records. *)
Theorem C3_failure_aborts (apiToken : string) (pre : list FetchResult)
    (fetched : FetchResult) (rest : list FetchResult) :
  Forall continuing pre ->
  (exists response, transport_failure fetched response)
  \/ (exists errors, application_errors fetched errors) ->
  exists e sent,
    getRailwayServiceInfo apiToken (pre ++ fetched :: rest) = (Threw e, sent)
    /\ length sent = S (length pre)
    /\ (forall response, transport_failure fetched response ->
          e = {| name := "Error"; message := request_failed_message response |})
    /\ (forall errors, application_errors fetched errors ->
          e = {| name := "Error"; message := graphql_errors_message errors |})
    /\ (forall records,
          fst (getRailwayServiceInfo apiToken (pre ++ fetched :: rest))
          <> Returned records)
    /\ (forall authorization,
          apiToken_of authorization = Some apiToken -> apiToken <> EmptyString ->
          exists status msg,
            services_status authorization (pre ++ fetched :: rest)
            = (Some {| code := status; body := error_body msg |}, sent)).
Proof.
  intros Hpre Hfail.
  assert (exists e, forall acc, loop_body fetched acc = Throws e) as (e & He).
  { destruct Hfail as [(response & H) | (errors & H)]; eexists; intros acc.
    - apply (loop_body_transport_failure _ _ _ H).
    - apply (loop_body_application_errors _ _ _ H). }
  destruct (failing_run apiToken pre fetched rest e Hpre He) as (sent & E & Hlen).
  exists e, sent. repeat split; auto.
  - intros response H.
    pose proof (loop_body_transport_failure _ _ [] H) as H'.
    rewrite He in H'. congruence.
  - intros errors H.
    pose proof (loop_body_application_errors _ _ [] H) as H'.
    rewrite He in H'. congruence.
  - intros records. rewrite E. discriminate.
  - intros authorization Htok Hne.
    rewrite (services_status_authorized _ _ _ Htok Hne), E, on_error_cases.
    destruct (JsString.includes _ _); eexists _, _; reflexivity.
Qed.

Lemma C3_failure_aborts_witness :
  exists e sent,
    getRailwayServiceInfo "tok"
      ([Sample.page1] ++ Resolved Sample.status500 :: [Sample.page2])
    = (Threw e, sent)
    /\ length sent = 2
    /\ (forall response,
          transport_failure (Resolved Sample.status500) response ->
          e = {| name := "Error"; message := request_failed_message response |})
    /\ (forall errors,
          application_errors (Resolved Sample.status500) errors ->
          e = {| name := "Error"; message := graphql_errors_message errors |})
    /\ (forall records,
          fst (getRailwayServiceInfo "tok"
                 ([Sample.page1] ++ Resolved Sample.status500 :: [Sample.page2]))
          <> Returned records)
    /\ (forall authorization,
          apiToken_of authorization = Some "tok" -> "tok" <> EmptyString ->
          exists status msg,
            services_status authorization
              ([Sample.page1] ++ Resolved Sample.status500 :: [Sample.page2])
            = (Some {| code := status; body := error_body msg |}, sent)).
Proof.
  apply (C3_failure_aborts "tok" [Sample.page1] (Resolved Sample.status500)
           [Sample.page2]).
  - constructor; [exact Sample_page1_continuing | constructor].
  - left. exists Sample.status500. split; reflexivity.
Defined.

(** ** Pagination metadata *)




(** ** The route layer *)

Lemma no_token_unauthorized (authorization param : option string)
    (script : list FetchResult) :
  falsy (apiToken_of authorization) = true ->
  services_status authorization script = (Some unauthorized, [])
  /\ service_status authorization param script = (Some unauthorized, []).
Proof.
  intros H. unfold services_status, service_status. now rewrite H.
Qed.

(** C7.  Without a token (no header, or nothing left of it) both protected
    endpoints answer 401 with the unauthorized body, and no request has
    been issued to the upstream. *)
Theorem C7_missing_token (authorization param : option string)
    (script : list FetchResult) :
  falsy (apiToken_of authorization) = true ->
  services_status authorization script = (Some unauthorized, [])
  /\ service_status authorization param script = (Some unauthorized, []).
Proof. apply no_token_unauthorized. Qed.

Lemma C7_missing_token_witness :
  services_status None [Sample.page1] = (Some unauthorized, [])
  /\ service_status None (Some "a.up.railway.app") [Sample.page1]
     = (Some unauthorized, []).
Proof. apply C7_missing_token. reflexivity. Defined.

(** C6.  When the call for a page comes back with a non-success status,
    both protected endpoints answer 502 with the body
    [{"error":"Failed to fetch from Railway API"}]. *)
Theorem C6_transport_failure_bad_gateway (authorization : option string)
    (apiToken : string) (pre : list FetchResult) (fetched : FetchResult)
    (response : Response.t) (rest : list FetchResult) :
  apiToken_of authorization = Some apiToken -> apiToken <> EmptyString ->
  Forall continuing pre ->
  transport_failure fetched response ->
  exists sent,
    services_status authorization (pre ++ fetched :: rest)
    = (Some {| code := 502;
               body := JObj [("error", JStr "Failed to fetch from Railway API")] |},
       sent)
    /\ (forall url, url <> EmptyString ->
        service_status authorization (Some url) (pre ++ fetched :: rest)
        = (Some {| code := 502;
                   body := JObj [("error", JStr "Failed to fetch from Railway API")] |},
           sent))
    /\ length sent = S (length pre).
Proof.
  intros Htok Hne Hpre Hfail.
  destruct (failing_run apiToken pre fetched rest _ Hpre
              (fun acc => loop_body_transport_failure _ _ acc Hfail))
    as (sent & E & Hlen).
  exists sent. repeat split; auto.
  - now rewrite (services_status_authorized _ _ _ Htok Hne), E,
      on_error_request_failed.
  - intros url Hurl.
    now rewrite (service_status_authorized _ _ _ _ Htok Hne Hurl), E,
      on_error_request_failed.
Qed.

Lemma C6_transport_failure_bad_gateway_witness :
  exists sent,
    services_status (Some "Bearer tok")
      ([Sample.page1] ++ Resolved Sample.status500 :: [])
    = (Some {| code := 502;
               body := JObj [("error", JStr "Failed to fetch from Railway API")] |},
       sent)
    /\ (forall url, url <> EmptyString ->
        service_status (Some "Bearer tok") (Some url)
          ([Sample.page1] ++ Resolved Sample.status500 :: [])
        = (Some {| code := 502;
                   body := JObj [("error", JStr "Failed to fetch from Railway API")] |},
           sent))
    /\ length sent = 2.
Proof.
  apply (C6_transport_failure_bad_gateway (Some "Bearer tok") "tok"
           [Sample.page1] (Resolved Sample.status500) Sample.status500 []).
  - reflexivity.
  - discriminate.
  - constructor; [exact Sample_page1_continuing | constructor].
  - split; reflexivity.
Defined.

(** C8, as stated, fails: an errors payload whose text holds the words the
    handlers look for, in a [message] or in any other member, is answered
    502, like a transport failure. *)
Lemma C8_counterexample :
  application_errors
    (Sample.errors_response [Sample.error "GraphQL request failed"])
    [Sample.error "GraphQL request failed"]
  /\ services_status (Some "Bearer tok")
       [Sample.errors_response [Sample.error "GraphQL request failed"]]
     = (Some bad_gateway, [request "tok" None])
  /\ service_status (Some "Bearer tok") (Some "a.up.railway.app")
       [Sample.errors_response [Sample.error "GraphQL request failed"]]
     = (Some bad_gateway, [request "tok" None])
  /\ services_status (Some "Bearer tok")
       [Sample.errors_response
          [Sample.full_error "Not Authorized" "GraphQL request failed"]]
     = (Some bad_gateway, [request "tok" None])
  /\ bad_gateway <> internal_error.
Proof.
  repeat split.
  - eexists _, _. repeat split.
  - discriminate.
Qed.

(** C8, amended.  When the call succeeds at the transport level and the
    decoded body carries an errors payload, the traversal throws and both
    endpoints answer by the text of [JSON.stringify] of the payload as it
    was received, with all the members of its elements: the
    generic 500 [{"error":"Internal Server Error"}], the answer to every
    error whose message lacks the words "GraphQL request failed", when the
    payload lacks them, and the 502 of a transport failure when it holds
    them. *)
Theorem C8_application_errors_response (authorization : option string)
    (apiToken : string) (pre : list FetchResult) (fetched : FetchResult)
    (errors : list Json) (rest : list FetchResult) :
  apiToken_of authorization = Some apiToken -> apiToken <> EmptyString ->
  Forall continuing pre ->
  application_errors fetched errors ->
  let response :=
    if JsString.includes (JSON.stringify (JArr errors))
         "GraphQL request failed"
    then {| code := 502;
            body := JObj [("error", JStr "Failed to fetch from Railway API")] |}
    else {| code := 500; body := JObj [("error", JStr "Internal Server Error")] |}
  in
  exists sent,
    getRailwayServiceInfo apiToken (pre ++ fetched :: rest)
    = (Threw {| name := "Error"; message := graphql_errors_message errors |}, sent)
    /\ services_status authorization (pre ++ fetched :: rest) = (Some response, sent)
    /\ (forall url, url <> EmptyString ->
        service_status authorization (Some url) (pre ++ fetched :: rest)
        = (Some response, sent))
    /\ (forall e : JsError,
          JsString.includes (message e) "GraphQL request failed" = false ->
          on_error e
          = {| code := 500; body := JObj [("error", JStr "Internal Server Error")] |}).
Proof.
  intros Htok Hne Hpre Herr response.
  destruct (failing_run apiToken pre fetched rest _ Hpre
              (fun acc => loop_body_application_errors _ _ acc Herr))
    as (sent & E & Hlen).
  assert (on_error {| name := "Error"; message := graphql_errors_message errors |}
          = response) as Hresp.
  { rewrite on_error_cases. cbn [message]. unfold graphql_errors_message.
    now rewrite includes_graphql_errors. }
  exists sent. repeat split; auto.
  - now rewrite (services_status_authorized _ _ _ Htok Hne), E, Hresp.
  - intros url Hurl.
    now rewrite (service_status_authorized _ _ _ _ Htok Hne Hurl), E, Hresp.
  - intros e He. now rewrite on_error_cases, He.
Qed.

Lemma C8_application_errors_response_witness :
  exists sent,
    getRailwayServiceInfo "tok"
      ([Sample.page1]
         ++ Sample.errors_response [Sample.full_error "Not Authorized" "FORBIDDEN"]
         :: [])
    = (Threw {| name := "Error";
                message := graphql_errors_message [Sample.full_error "Not Authorized" "FORBIDDEN"] |},
       sent)
    /\ services_status (Some "Bearer tok")
         ([Sample.page1]
         ++ Sample.errors_response [Sample.full_error "Not Authorized" "FORBIDDEN"]
         :: [])
       = (Some internal_error, sent)
    /\ (forall url, url <> EmptyString ->
        service_status (Some "Bearer tok") (Some url)
          ([Sample.page1]
         ++ Sample.errors_response [Sample.full_error "Not Authorized" "FORBIDDEN"]
         :: [])
        = (Some internal_error, sent))
    /\ (forall e : JsError,
          JsString.includes (message e) "GraphQL request failed" = false ->
          on_error e = internal_error).
Proof.
  apply (C8_application_errors_response (Some "Bearer tok") "tok" [Sample.page1]
           (Sample.errors_response [Sample.full_error "Not Authorized" "FORBIDDEN"])
           [Sample.full_error "Not Authorized" "FORBIDDEN"] []).
  - reflexivity.
  - discriminate.
  - constructor; [exact Sample_page1_continuing | constructor].
  - eexists _, _. repeat split.
Defined.

Lemma find_service_first (url : string) (before : list RailwayService)
    (service : RailwayService) (after : list RailwayService) :
  (forall s, In s before -> staticUrl s <> url) ->
  staticUrl service = url ->
  find_service (before ++ service :: after) url = Some service.
Proof.
  intros Hbefore Hurl. unfold find_service.
  induction before as [|b before IH]; simpl.
  - now rewrite Hurl, String.eqb_refl.
  - destruct (String.eqb (staticUrl b) url) eqn:E.
    + apply String.eqb_eq in E. exfalso. apply (Hbefore b); simpl; auto.
    + apply IH. intros s Hs. apply Hbefore. now right.
Qed.

(** C5.  On the lookup endpoint, with a token and a path parameter and a
    traversal that returned: when no record has the parameter as its
    [staticUrl] the answer is the 404 not-found error body; when some
    record has, the answer carries the [serviceName] and [status] of the
    first such record under the success code 200, whatever that status
    is. *)
Theorem C5_lookup_by_url (authorization : option string) (apiToken url : string)
    (script : list FetchResult) (services : list RailwayService)
    (sent : list Request.t) :
  apiToken_of authorization = Some apiToken -> apiToken <> EmptyString ->
  url <> EmptyString ->
  getRailwayServiceInfo apiToken script = (Returned services, sent) ->
  ((forall s, In s services -> staticUrl s <> url) ->
   service_status authorization (Some url) script
   = (Some {| code := 404;
              body := JObj [("error",
                             JStr "Not Found: Service with provided staticUrl not found")] |},
      sent))
  /\ (forall before service after,
        services = (before ++ service :: after)%list ->
        (forall s, In s before -> staticUrl s <> url) ->
        staticUrl service = url ->
        service_status authorization (Some url) script
        = (Some {| code := 200;
                   body := JObj [("serviceName", JStr (serviceName service));
                                 ("status", JStr (status service))] |},
           sent))
  /\ ((exists s, In s services /\ staticUrl s = url) ->
      exists service,
        In service services /\ staticUrl service = url
        /\ service_status authorization (Some url) script
           = (Some {| code := 200;
                      body := JObj [("serviceName", JStr (serviceName service));
                                    ("status", JStr (status service))] |},
              sent)).
Proof.
  intros Htok Hne Hurl Hrun.
  rewrite (service_status_authorized _ _ _ _ Htok Hne Hurl), Hrun.
  repeat split.
  - intros Hnone. destruct (find_service services url) as [s|] eqn:E; [|reflexivity].
    apply find_some in E. destruct E as [Hin E]. apply String.eqb_eq in E.
    now destruct (Hnone s Hin).
  - intros before service after -> Hbefore Hs.
    now rewrite (find_service_first url before service after Hbefore Hs).
  - intros (s & Hin & Hs).
    destruct (find_service services url) as [service|] eqn:E.
    + apply find_some in E. destruct E as [Hin' E]. apply String.eqb_eq in E.
      exists service. auto.
    + pose proof (find_none _ _ E s Hin) as Hno. simpl in Hno.
      rewrite Hs, String.eqb_refl in Hno. discriminate.
Qed.

Lemma C5_lookup_by_url_witness :
  service_status (Some "Bearer tok") (Some "b.up.railway.app")
    [Sample.page1; Sample.page2]
  = (Some {| code := 200;
             body := JObj [("serviceName", JStr "svc-s1");
                           ("status", JStr "CRASHED")] |},
     [request "tok" None; request "tok" (Some "c1")]).
Proof.
  apply (proj1 (proj2
           (C5_lookup_by_url (Some "Bearer tok") "tok" "b.up.railway.app"
              [Sample.page1; Sample.page2] [Sample.record1; Sample.record2]
              [request "tok" None; request "tok" (Some "c1")]
              eq_refl ltac:(discriminate) ltac:(discriminate) eq_refl))
         [Sample.record1] Sample.record2 [] eq_refl).
  - intros s [<- | []]. discriminate.
  - reflexivity.
Defined.

(** Every request of a traversal carries the token it was called with, and
    a traversal that starts with the has-more flag set issues at least the
    request for the first page. *)
Lemma while_loop_requests apiToken script :
  forall hasNextPage afterCursor allServices sent,
  exists requests,
    snd (while_loop apiToken script hasNextPage afterCursor allServices sent)
    = (sent ++ requests)%list
    /\ Forall (fun r => Request.authorization r = "Bearer " ++ apiToken) requests
    /\ (hasNextPage = true ->
        exists others, requests = request apiToken afterCursor :: others).
Proof.
  induction script as [|fetched script IH]; intros h c acc sent.
  - destruct h; simpl.
    + exists [request apiToken c]. repeat split; eauto.
    + exists []. rewrite app_nil_r. repeat split; auto. discriminate.
  - destruct h; simpl.
    + destruct (loop_body fetched acc) as [e| |acc' h' c'].
      * exists [request apiToken c]. repeat split; eauto.
      * exists [request apiToken c]. repeat split; eauto.
      * destruct (IH h' c' acc' (sent ++ [request apiToken c])%list)
          as (reqs & E & Hall & _).
        exists (request apiToken c :: reqs). rewrite E, <- app_assoc.
        repeat split; eauto.
    + exists []. rewrite app_nil_r. repeat split; auto. discriminate.
Qed.

Lemma on_error_code (e : JsError) : code (on_error e) <> 401%Z.
Proof. rewrite on_error_cases. destruct (JsString.includes _ _); discriminate. Qed.

(** Token extraction on the value the handler sees: the replacement leaves
    nothing exactly of the empty value and of "Bearer ", which are answered
    401; of any other value what is left is the token. *)
Lemma token_of_seen_header (h : string) (param : option string)
    (script : list FetchResult) :
  (JsString.replace h "Bearer " EmptyString = EmptyString ->
   (h = EmptyString \/ h = "Bearer ")
   /\ services_status (Some h) script = (Some unauthorized, [])
   /\ service_status (Some h) param script = (Some unauthorized, []))
  /\ (JsString.replace h "Bearer " EmptyString <> EmptyString ->
      let apiToken := JsString.replace h "Bearer " EmptyString in
      services_status (Some h) script =
        match getRailwayServiceInfo apiToken script with
        | (Returned services, sent) =>
            (Some (c_json (JArr (map service_json services)) None), sent)
        | (Threw error, sent) => (Some (on_error error), sent)
        | (Pending, sent) => (None, sent)
        end
      /\ (exists others,
            snd (services_status (Some h) script)
            = {| Request.url := graphqlEndpoint;
                 Request.authorization := "Bearer " ++ apiToken;
                 Request.after := None |} :: others
            /\ Forall (fun r => Request.authorization r = "Bearer " ++ apiToken)
                 others)
      /\ (forall response sent,
            services_status (Some h) script = (Some response, sent) ->
            code response <> 401%Z)
      /\ (forall response sent,
            service_status (Some h) param script = (Some response, sent) ->
            code response <> 401%Z)).
Proof.
  split.
  - intros H. split; [now apply replace_Bearer_empty|].
    apply no_token_unauthorized. simpl. now rewrite H.
  - intros Hne apiToken.
    assert (apiToken_of (Some h) = Some apiToken) as Htok by reflexivity.
    pose proof (services_status_authorized _ _ script Htok Hne) as E.
    split; [exact E|]. split; [|split].
    + rewrite E. unfold getRailwayServiceInfo.
      destruct (while_loop_requests apiToken script true None [] [])
        as (reqs & Hsent & Hall & Hfirst).
      destruct (Hfirst eq_refl) as (others & ->).
      exists others. split; [|now inversion Hall].
      destruct (while_loop apiToken script true None [] []) as [[services|e|] sent];
        exact Hsent.
    + intros response sent. rewrite E.
      destruct (getRailwayServiceInfo apiToken script) as [[services|e|] sent'];
        intros [= <- _]; try discriminate. apply on_error_code.
    + intros response sent. unfold service_status.
      rewrite Htok, (falsy_token apiToken Hne).
      destruct (falsy param); [intros [= <- _]; discriminate|].
      destruct (getRailwayServiceInfo _ script) as [[services|e|] sent'];
        try (intros [= <- _]; try discriminate; apply on_error_code).
      destruct (find_service services _) as [s|]; [|intros [= <- _]; discriminate].
      destruct (negb _); intros [= <- _]; discriminate.
Qed.

Lemma trim_end_no_trailing (s : string) :
  ends_with_whitespace (trim_end s) = false.
Proof.
  induction s as [|c s IH]; [reflexivity|]. simpl.
  destruct (trim_end s) as [|a t].
  - destruct (http_whitespace c) eqn:E; simpl; auto.
  - exact IH.
Qed.

Lemma field_value_not_prefix_only (raw : string) : field_value raw <> "Bearer ".
Proof.
  intros H. pose proof (trim_end_no_trailing (trim_start raw)) as Hn.
  unfold field_value in H. rewrite H in Hn. discriminate.
Qed.

(** C10, as stated, fails at its own example: a header sent as "Bearer "
    reaches the handler as "Bearer", of which the replacement leaves all,
    and the request is not answered 401 but passed on to the upstream under
    the token "Bearer". *)
Lemma C10_counterexample :
  received (Some "Bearer ") = Some "Bearer"
  /\ apiToken_of (received (Some "Bearer ")) = Some "Bearer"
  /\ services_status (received (Some "Bearer ")) [Sample.page2]
     = (Some {| code := 200; body := JArr [service_json Sample.record2] |},
        [{| Request.url := graphqlEndpoint;
            Request.authorization := "Bearer Bearer";
            Request.after := None |}])
  /\ service_status (received (Some "Bearer ")) (Some "b.up.railway.app")
       [Sample.page2]
     = (Some {| code := 200;
                body := JObj [("serviceName", JStr "svc-s1");
                              ("status", JStr "CRASHED")] |},
        [{| Request.url := graphqlEndpoint;
            Request.authorization := "Bearer Bearer";
            Request.after := None |}])
  /\ fst (services_status (received (Some "Bearer ")) [Sample.page2])
     <> Some unauthorized.
Proof. repeat split. discriminate. Qed.

(** C10, amended.  The handlers see a header value with the whitespace at
    its ends removed.  Of such a value the replacement of "Bearer " leaves
    nothing exactly when the value is empty, and then both endpoints answer
    401 with no request to the upstream.  Any other value, with or without
    the prefix, is not answered 401: what the replacement leaves of it is
    not empty and is the token, the list endpoint runs the traversal with
    it and its first request carries it. *)
Theorem C10_token_extraction (raw : string) (param : option string)
    (script : list FetchResult) :
  let h := field_value raw in
  (JsString.replace h "Bearer " EmptyString = EmptyString <-> h = EmptyString)
  /\ (h = EmptyString ->
      services_status (received (Some raw)) script = (Some unauthorized, [])
      /\ service_status (received (Some raw)) param script
         = (Some unauthorized, []))
  /\ (h <> EmptyString ->
      let apiToken := JsString.replace h "Bearer " EmptyString in
      apiToken <> EmptyString
      /\ services_status (received (Some raw)) script =
           match getRailwayServiceInfo apiToken script with
           | (Returned services, sent) =>
               (Some (c_json (JArr (map service_json services)) None), sent)
           | (Threw error, sent) => (Some (on_error error), sent)
           | (Pending, sent) => (None, sent)
           end
      /\ (exists others,
            snd (services_status (received (Some raw)) script)
            = {| Request.url := graphqlEndpoint;
                 Request.authorization := "Bearer " ++ apiToken;
                 Request.after := None |} :: others
            /\ Forall (fun r => Request.authorization r = "Bearer " ++ apiToken)
                 others)
      /\ (forall response sent,
            services_status (received (Some raw)) script = (Some response, sent) ->
            code response <> 401%Z)
      /\ (forall response sent,
            service_status (received (Some raw)) param script
            = (Some response, sent) ->
            code response <> 401%Z)).
Proof.
  intros h. change (received (Some raw)) with (Some h).
  assert (JsString.replace h "Bearer " EmptyString = EmptyString
          <-> h = EmptyString) as Hiff.
  { rewrite replace_Bearer_empty. split; [|now left].
    intros [H|H]; [exact H|]. now destruct (field_value_not_prefix_only raw). }
  destruct (token_of_seen_header h param script) as [Hempty Htoken].
  split; [exact Hiff|]. split.
  - intros H. apply Hempty. now apply Hiff.
  - intros Hne.
    assert (JsString.replace h "Bearer " EmptyString <> EmptyString) as Hne'
        by (intros H; apply Hne; now apply Hiff).
    split; [exact Hne'|]. exact (Htoken Hne').
Qed.

Lemma C10_token_extraction_witness :
  (services_status (received (Some " ")) [Sample.page1] = (Some unauthorized, [])
   /\ service_status (received (Some " ")) (Some "a.up.railway.app")
        [Sample.page1]
      = (Some unauthorized, []))
  /\ (forall response sent,
        services_status (received (Some "tok")) [Sample.page1; Sample.page2]
        = (Some response, sent) ->
        code response <> 401%Z).
Proof.
  split.
  - exact (proj1 (proj2 (C10_token_extraction " " (Some "a.up.railway.app")
                           [Sample.page1])) eq_refl).
  - refine (proj1 (proj2 (proj2 (proj2
      (proj2 (proj2 (C10_token_extraction "tok" None
                       [Sample.page1; Sample.page2])) _))))).
    discriminate.
Defined.

(** ** One record per service *)

Lemma filter_flat_map_length {A B C : Type} (p : B -> bool) (q : C -> bool)
    (f : A -> list B) (g : A -> list C) (l : list A) :
  (forall x, length (filter p (f x)) <= length (filter q (g x))) ->
  length (filter p (flat_map f l)) <= length (filter q (flat_map g l)).
Proof.
  intros H. induction l as [|x l IH]; simpl; [lia|].
  rewrite !filter_app, !length_app. specialize (H x). lia.
Qed.

Lemma flat_map_singleton {A B : Type} (f : A -> B) (l : list A) :
  flat_map (fun x => [f x]) l = map f l.
Proof. induction l as [|x l IH]; simpl; [|rewrite IH]; reflexivity. Qed.

Lemma service_emits_length pid sid project service :
  length (records_of_service pid sid (service_emits project service))
  <= length (filter (is_pair pid sid) [(Project.id project, Service.id service)]).
Proof.
  unfold service_emits, records_of_service.
  destruct (first_instance service) as [instance|]; [|simpl; lia].
  destruct (ServiceInstance.latestDeployment instance); simpl;
    destruct (is_pair pid sid _); simpl; lia.
Qed.

Lemma script_emits_length pid sid script :
  length (records_of_service pid sid (script_emits script))
  <= length (filter (is_pair pid sid) (script_services script)).
Proof.
  unfold records_of_service, script_emits, script_services.
  apply filter_flat_map_length. intros fetched.
  unfold fetch_emits, fetch_services.
  destruct (page_of fetched) as [data|]; [|simpl; lia].
  destruct (projects_of data) as [projects|]; [|simpl; lia].
  unfold page_emits, page_services.
  apply filter_flat_map_length. intros projectEdge.
  unfold project_emits, project_services.
  rewrite <- flat_map_singleton.
  apply filter_flat_map_length. intros service.
  apply service_emits_length.
Qed.

Lemma is_pair_eq pid sid k : is_pair pid sid k = true -> k = (pid, sid).
Proof.
  destruct k as [a b]. unfold is_pair. simpl. intros H.
  apply andb_true_iff in H. destruct H as [Ha Hb].
  apply String.eqb_eq in Ha, Hb. congruence.
Qed.

Lemma NoDup_filter_pair pid sid (pairs : list (string * string)) :
  NoDup pairs -> length (filter (is_pair pid sid) pairs) <= 1.
Proof.
  induction 1 as [|k pairs Hnotin Hnodup IH]; simpl; [lia|].
  destruct (is_pair pid sid k) eqn:E; [|exact IH].
  apply is_pair_eq in E. subst k.
  destruct (filter (is_pair pid sid) pairs) as [|k' rest] eqn:F; [simpl; lia|].
  exfalso. apply Hnotin.
  assert (In k' (filter (is_pair pid sid) pairs)) as Hin by (rewrite F; now left).
  apply filter_In in Hin. destruct Hin as [Hin Hk'].
  apply is_pair_eq in Hk'. now subst k'.
Qed.

Lemma firstn_fetched (pre : list FetchResult) fetched rest :
  firstn (S (length pre)) (pre ++ fetched :: rest) = (pre ++ [fetched])%list.
Proof.
  induction pre as [|x pre IH]; [reflexivity|].
  cbn [length app]. rewrite firstn_cons. now rewrite IH.
Qed.

(** C9.  When the (project, service) pairs listed on the pages that a
    returning traversal fetched are pairwise distinct, the returned list
    holds at most one record of any project and service. *)
Theorem C9_one_record_per_service (apiToken : string) (script : list FetchResult)
    (records : list RailwayService) (sent : list Request.t) :
  getRailwayServiceInfo apiToken script = (Returned records, sent) ->
  NoDup (script_services (firstn (length sent) script)) ->
  forall pid sid, length (records_of_service pid sid records) <= 1.
Proof.
  intros Hrun Hnodup pid sid. unfold getRailwayServiceInfo in Hrun.
  apply returned_run in Hrun.
  destruct Hrun as (pre & fetched & rest & -> & _ & _ & Hlen & ->).
  simpl in Hlen. rewrite Hlen, firstn_fetched in Hnodup. simpl app.
  etransitivity; [apply script_emits_length|].
  now apply NoDup_filter_pair.
Qed.

Lemma C9_one_record_per_service_witness :
  length (records_of_service "p1" "s1" [Sample.record1; Sample.record2]) <= 1.
Proof.
  apply (C9_one_record_per_service "tok" [Sample.page1; Sample.page2]
           [Sample.record1; Sample.record2]
           [request "tok" None; request "tok" (Some "c1")] eq_refl).
  simpl. repeat constructor; simpl; intuition discriminate.
Defined.

(** * Further properties of the traversal and of the routes *)

(** ** What a traversal returns and what it asks for *)

(** X1.  A traversal that returns hands back exactly what the pages it
    fetched emit, page after page in the order fetched, and it has issued
    one request for each of them. *)
Theorem X1_returned_concatenation (apiToken : string) (script : list FetchResult)
    (records : list RailwayService) (sent : list Request.t) :
  getRailwayServiceInfo apiToken script = (Returned records, sent) ->
  records = script_emits (firstn (length sent) script)
  /\ 1 <= length sent <= length script.
Proof.
  intros Hrun. unfold getRailwayServiceInfo in Hrun. apply returned_run in Hrun.
  destruct Hrun as (pre & fetched & rest & -> & _ & _ & Hlen & ->).
  simpl in Hlen. rewrite Hlen, firstn_fetched. split; [reflexivity|].
  rewrite length_app. simpl. lia.
Qed.

Lemma X1_returned_concatenation_witness :
  [Sample.record1; Sample.record2]
  = script_emits (firstn 2 [Sample.page1; Sample.page2; Sample.page1])
  /\ 1 <= 2 <= 3.
Proof.
  exact (X1_returned_concatenation "tok"
           [Sample.page1; Sample.page2; Sample.page1]
           [Sample.record1; Sample.record2]
           [request "tok" None; request "tok" (Some "c1")] eq_refl).
Defined.




Lemma flat_map_length_le {A B C : Type} (f : A -> list B) (g : A -> list C)
    (l : list A) :
  (forall x, length (f x) <= length (g x)) ->
  length (flat_map f l) <= length (flat_map g l).
Proof.
  intros H. induction l as [|x l IH]; simpl; [lia|].
  rewrite !length_app. specialize (H x). lia.
Qed.

Lemma script_emits_count script :
  length (script_emits script) <= length (script_services script).
Proof.
  unfold script_emits, script_services.
  apply flat_map_length_le. intros fetched.
  unfold fetch_emits, fetch_services.
  destruct (page_of fetched) as [data|]; [|simpl; lia].
  destruct (projects_of data) as [projects|]; [|simpl; lia].
  unfold page_emits, page_services.
  apply flat_map_length_le. intros projectEdge.
  unfold project_emits, project_services.
  rewrite <- flat_map_singleton.
  apply flat_map_length_le. intros service. unfold service_emits.
  destruct (first_instance service) as [instance|]; [|simpl; lia].
  destruct (ServiceInstance.latestDeployment instance); simpl; lia.
Qed.

(** X3.  A returning traversal hands back no more records than the pages
    it fetched list services. *)
Theorem X3_records_bounded_by_services (apiToken : string)
    (script : list FetchResult) (records : list RailwayService)
    (sent : list Request.t) :
  getRailwayServiceInfo apiToken script = (Returned records, sent) ->
  length records <= length (script_services (firstn (length sent) script)).
Proof.
  intros Hrun. unfold getRailwayServiceInfo in Hrun. apply returned_run in Hrun.
  destruct Hrun as (pre & fetched & rest & -> & _ & _ & Hlen & ->).
  simpl in Hlen. rewrite Hlen, firstn_fetched. apply script_emits_count.
Qed.

Lemma X3_records_bounded_by_services_witness :
  length [Sample.record1; Sample.record2]
  <= length (script_services (firstn 2 [Sample.page1; Sample.page2])).
Proof.
  exact (X3_records_bounded_by_services "tok" [Sample.page1; Sample.page2]
           [Sample.record1; Sample.record2]
           [request "tok" None; request "tok" (Some "c1")] eq_refl).
Defined.


(** ** The routes *)

Lemma page_empty_emits fetched data :
  page_of fetched = Some data -> page_empty data -> fetch_emits fetched = [].
Proof.
  intros Hpage [H|H]; unfold fetch_emits; now rewrite Hpage, H.
Qed.

(** X5.  When the first answer of the upstream is a page without projects
    (no [data], no [edges], or an empty [edges]), whatever its pagination
    metadata says, the list endpoint answers 200 with the empty array and
    the lookup endpoint answers 404, each after exactly one request. *)
Theorem X5_empty_first_page (authorization : option string) (apiToken : string)
    (fetched : FetchResult) (data : GraphQLResponse.t) (rest : list FetchResult) :
  apiToken_of authorization = Some apiToken -> apiToken <> EmptyString ->
  page_of fetched = Some data -> page_empty data ->
  services_status authorization (fetched :: rest)
  = (Some {| code := 200; body := JArr [] |}, [request apiToken None])
  /\ (forall url, url <> EmptyString ->
      service_status authorization (Some url) (fetched :: rest)
      = (Some not_found, [request apiToken None])).
Proof.
  intros Htok Hne Hpage Hempty.
  assert (getRailwayServiceInfo apiToken (fetched :: rest)
          = (Returned [], [request apiToken None])) as E.
  { unfold getRailwayServiceInfo. rewrite stopping_step.
    - now rewrite (page_empty_emits _ _ Hpage Hempty).
    - exists data. auto. }
  split.
  - now rewrite (services_status_authorized _ _ _ Htok Hne), E.
  - intros url Hurl.
    now rewrite (service_status_authorized _ _ _ _ Htok Hne Hurl), E.
Qed.

Lemma X5_empty_first_page_witness :
  services_status (Some "Bearer tok") (Sample.empty_page :: [Sample.page1])
  = (Some {| code := 200; body := JArr [] |}, [request "tok" None])
  /\ (forall url, url <> EmptyString ->
      service_status (Some "Bearer tok") (Some url)
        (Sample.empty_page :: [Sample.page1])
      = (Some not_found, [request "tok" None])).
Proof.
  apply (X5_empty_first_page (Some "Bearer tok") "tok" Sample.empty_page
           (Sample.body [] (Some true) (Some "c9")) [Sample.page1]).
  - reflexivity.
  - discriminate.
  - reflexivity.
  - now right.
Defined.

Lemma on_error_codes (e : JsError) :
  code (on_error e) = 502%Z \/ code (on_error e) = 500%Z.
Proof. rewrite on_error_cases. destruct (JsString.includes _ _); auto. Qed.

(** X7.  The list endpoint answers only with the codes 200, 401, 500 and
    502, and the lookup endpoint only with 200, 400, 401, 404, 500 and 502;
    in particular a deployment whose status is not SUCCESS is never
    answered 503. *)
Theorem X7_status_codes (authorization param : option string)
    (script : list FetchResult) :
  (forall response sent,
      services_status authorization script = (Some response, sent) ->
      In (code response) [200; 401; 500; 502]%Z)
  /\ (forall response sent,
      service_status authorization param script = (Some response, sent) ->
      In (code response) [200; 400; 401; 404; 500; 502]%Z).
Proof.
  split; intros response sent.
  - unfold services_status. destruct (falsy (apiToken_of authorization)).
    + intros [= <- _]. simpl. auto 10.
    + destruct (getRailwayServiceInfo _ script) as [[services|e|] sent'];
        intros [= <- _]; simpl; auto 10.
      destruct (on_error_codes e) as [-> | ->]; auto 10.
  - unfold service_status. destruct (falsy (apiToken_of authorization)).
    + intros [= <- _]. simpl. auto 10.
    + destruct (falsy param); [intros [= <- _]; simpl; auto 10|].
      destruct (getRailwayServiceInfo _ script) as [[services|e|] sent'].
      * destruct (find_service services _) as [s|];
          [destruct (negb _)|]; intros [= <- _]; simpl; auto 10.
      * intros [= <- _]. destruct (on_error_codes e) as [-> | ->]; simpl; auto 10.
      * discriminate.
Qed.

Lemma loop_body_runtime_failure fetched msg allServices :
  runtime_failure fetched msg ->
  exists kind,
    loop_body fetched allServices = Throws {| name := kind; message := msg |}.
Proof.
  intros [-> | (response & -> & Hok & Hjson)]; simpl.
  - eauto.
  - rewrite Hok, Hjson. simpl. eauto.
Qed.

(** X8.  When a fetch rejects (the network fails) or the body of a success
    response does not decode, the traversal throws the error of the runtime
    unchanged, and both endpoints answer by its message: 500 with the
    internal-error body unless the message holds the words "GraphQL request
    failed", in which case 502. *)
Theorem X8_runtime_failure (authorization : option string) (apiToken msg : string)
    (pre : list FetchResult) (fetched : FetchResult) (rest : list FetchResult) :
  apiToken_of authorization = Some apiToken -> apiToken <> EmptyString ->
  Forall continuing pre ->
  runtime_failure fetched msg ->
  let response :=
    if JsString.includes msg "GraphQL request failed"
    then bad_gateway else internal_error in
  exists kind sent,
    getRailwayServiceInfo apiToken (pre ++ fetched :: rest)
    = (Threw {| name := kind; message := msg |}, sent)
    /\ length sent = S (length pre)
    /\ services_status authorization (pre ++ fetched :: rest) = (Some response, sent)
    /\ (forall url, url <> EmptyString ->
        service_status authorization (Some url) (pre ++ fetched :: rest)
        = (Some response, sent)).
Proof.
  intros Htok Hne Hpre Hfail response.
  destruct (loop_body_runtime_failure fetched msg [] Hfail) as (kind & Hk).
  assert (forall acc, loop_body fetched acc
                      = Throws {| name := kind; message := msg |}) as He.
  { intros acc. destruct (loop_body_runtime_failure fetched msg acc Hfail)
      as (kind' & Hk').
    destruct Hfail as [-> | (r & -> & Hok & Hjson)]; simpl in *.
    - congruence.
    - rewrite Hok, Hjson in *. simpl in *. congruence. }
  destruct (failing_run apiToken pre fetched rest _ Hpre He) as (sent & E & Hlen).
  exists kind, sent. repeat split; auto.
  - now rewrite (services_status_authorized _ _ _ Htok Hne), E, on_error_cases.
  - intros url Hurl.
    now rewrite (service_status_authorized _ _ _ _ Htok Hne Hurl), E,
      on_error_cases.
Qed.

Lemma X8_runtime_failure_witness :
  exists kind sent,
    getRailwayServiceInfo "tok"
      ([Sample.page1] ++ Rejected "Unable to connect" :: [])
    = (Threw {| name := kind; message := "Unable to connect" |}, sent)
    /\ length sent = 2
    /\ services_status (Some "Bearer tok")
         ([Sample.page1] ++ Rejected "Unable to connect" :: [])
       = (Some internal_error, sent)
    /\ (forall url, url <> EmptyString ->
        service_status (Some "Bearer tok") (Some url)
          ([Sample.page1] ++ Rejected "Unable to connect" :: [])
        = (Some internal_error, sent)).
Proof.
  apply (X8_runtime_failure (Some "Bearer tok") "tok" "Unable to connect"
           [Sample.page1] (Rejected "Unable to connect") []).
  - reflexivity.
  - discriminate.
  - constructor; [exact Sample_page1_continuing | constructor].
  - now left.
Defined.

(** X9.  With a token and a path parameter, the lookup endpoint issues the
    very requests of the list endpoint; where the list endpoint answers
    with an error the lookup endpoint gives the same answer, and where the
    list endpoint answers 200 the lookup endpoint answers 200 or 404. *)
Theorem X9_lookup_follows_list (authorization : option string)
    (apiToken url : string) (script : list FetchResult) :
  apiToken_of authorization = Some apiToken -> apiToken <> EmptyString ->
  url <> EmptyString ->
  snd (service_status authorization (Some url) script)
  = snd (services_status authorization script)
  /\ (forall response,
        fst (services_status authorization script) = Some response ->
        code response <> 200%Z ->
        fst (service_status authorization (Some url) script) = Some response)
  /\ (forall response,
        fst (services_status authorization script) = Some response ->
        code response = 200%Z ->
        exists response',
          fst (service_status authorization (Some url) script) = Some response'
          /\ (code response' = 200%Z \/ code response' = 404%Z))
  /\ (fst (services_status authorization script) = None
      <-> fst (service_status authorization (Some url) script) = None).
Proof.
  intros Htok Hne Hurl.
  rewrite (services_status_authorized _ _ _ Htok Hne),
    (service_status_authorized _ _ _ _ Htok Hne Hurl).
  destruct (getRailwayServiceInfo apiToken script) as [[services|e|] sent];
    simpl.
  - split; [now destruct (find_service services url)|].
    split; [intros response [= <-]; simpl; congruence|].
    split; [|destruct (find_service services url); split; discriminate].
    intros response _ _.
    destruct (find_service services url) as [s|]; eexists; split;
      try reflexivity; simpl; auto.
  - split; [reflexivity|]. split; [auto|].
    split; [|split; discriminate].
    intros response [= <-] H. destruct (on_error_codes e); congruence.
  - split; [reflexivity|]. split; [discriminate|]. split; [discriminate|].
    split; reflexivity.
Qed.

Lemma X9_lookup_follows_list_witness :
  snd (service_status (Some "Bearer tok") (Some "zzz")
         [Sample.page1; Sample.page2])
  = snd (services_status (Some "Bearer tok") [Sample.page1; Sample.page2]).
Proof.
  refine (proj1 (X9_lookup_follows_list (Some "Bearer tok") "tok" "zzz"
                   [Sample.page1; Sample.page2] eq_refl _ _)); discriminate.
Defined.

(** ** Tokens and messages *)

Lemma replace_absent (s pattern replacement : string) :
  JsString.includes s pattern = false ->
  JsString.replace s pattern replacement = s.
Proof.
  induction s as [|c s IH]; simpl.
  - destruct (JsString.strip_prefix pattern EmptyString); [discriminate | reflexivity].
  - destruct (JsString.strip_prefix pattern (String c s)); [discriminate|].
    intros H. now rewrite IH.
Qed.

Lemma replace_prefix (pattern rest replacement : string) :
  JsString.replace (pattern ++ rest) pattern replacement = replacement ++ rest.
Proof.
  destruct (pattern ++ rest) eqn:E; simpl; rewrite <- E, strip_prefix_app;
    reflexivity.
Qed.

Lemma includes_occurs (s needle : string) :
  JsString.includes s needle = true <-> occurs_in needle s.
Proof.
  split.
  - induction s as [|c s IH]; simpl.
    + destruct (JsString.strip_prefix needle EmptyString) as [rest|] eqn:E;
        [|discriminate].
      intros _. apply strip_prefix_Some in E. now exists EmptyString, rest.
    + destruct (JsString.strip_prefix needle (String c s)) as [rest|] eqn:E.
      * intros _. apply strip_prefix_Some in E. now exists EmptyString, rest.
      * intros H. destruct (IH H) as (a & b & ->). now exists (String c a), b.
  - intros (a & b & ->). induction a as [|c a IH].
    + exact (includes_prefix needle b).
    + simpl. now destruct (JsString.strip_prefix needle _).
Qed.

Lemma requests_carry_token (authorization param : option string)
    (apiToken : string) (script : list FetchResult) :
  apiToken_of authorization = Some apiToken ->
  Forall (fun r => Request.authorization r = "Bearer " ++ apiToken)
    (snd (services_status authorization script))
  /\ Forall (fun r => Request.authorization r = "Bearer " ++ apiToken)
       (snd (service_status authorization param script)).
Proof.
  intros Htok.
  destruct (while_loop_requests apiToken script true None [] [])
    as (reqs & Hsent & Hall & _).
  simpl in Hsent. fold (getRailwayServiceInfo apiToken script) in Hsent.
  unfold services_status, service_status. rewrite Htok. simpl nullish.
  destruct (falsy (Some apiToken)); [split; constructor|].
  split.
  - destruct (getRailwayServiceInfo apiToken script) as [[services|e|] sent];
      simpl in *; now subst.
  - destruct (falsy param); [constructor|].
    destruct (getRailwayServiceInfo apiToken script) as [[services|e|] sent];
      simpl in *; subst; auto.
    destruct (find_service services _); [destruct (negb _)|]; exact Hall.
Qed.

(** X10.  The proxy forwards the caller's credentials as they came: for a
    header "Bearer t" every request to the upstream carries that very
    header, and with a non-empty t the list endpoint issues at least the
    request for the first page with it; a header in which the text
    "Bearer " does not occur is forwarded with that prefix put in front. *)
Theorem X10_token_passthrough (t : string) (param : option string)
    (script : list FetchResult) :
  (Forall (fun r => Request.authorization r = "Bearer " ++ t)
     (snd (services_status (Some ("Bearer " ++ t)) script))
   /\ Forall (fun r => Request.authorization r = "Bearer " ++ t)
        (snd (service_status (Some ("Bearer " ++ t)) param script)))
  /\ (t <> EmptyString ->
      exists others,
        snd (services_status (Some ("Bearer " ++ t)) script)
        = {| Request.url := graphqlEndpoint;
             Request.authorization := "Bearer " ++ t;
             Request.after := None |} :: others)
  /\ (JsString.includes t "Bearer " = false ->
      Forall (fun r => Request.authorization r = "Bearer " ++ t)
        (snd (services_status (Some t) script))
      /\ Forall (fun r => Request.authorization r = "Bearer " ++ t)
           (snd (service_status (Some t) param script))).
Proof.
  assert (apiToken_of (Some ("Bearer " ++ t)) = Some t) as Htok.
  { unfold apiToken_of, option_map. now rewrite replace_prefix. }
  split; [now apply requests_carry_token|]. split.
  - intros Hne. rewrite (services_status_authorized _ _ script Htok Hne).
    destruct (while_loop_requests t script true None [] [])
      as (reqs & Hsent & _ & Hfirst).
    destruct (Hfirst eq_refl) as (others & ->). exists others.
    unfold getRailwayServiceInfo.
    destruct (while_loop t script true None [] []) as [[services|e|] sent];
      exact Hsent.
  - intros Habsent. apply requests_carry_token.
    unfold apiToken_of, option_map. now rewrite replace_absent.
Qed.

Lemma X10_token_passthrough_witness :
  exists others,
    snd (services_status (Some ("Bearer " ++ "tok")) [Sample.page2])
    = {| Request.url := graphqlEndpoint;
         Request.authorization := "Bearer " ++ "tok";
         Request.after := None |} :: others.
Proof.
  refine (proj1 (proj2 (X10_token_passthrough "tok" None [Sample.page2])) _).
  discriminate.
Defined.

(** X11.  The [catch] clause of both handlers answers 502 with the
    failed-to-fetch body exactly for the errors whose message holds the
    words "GraphQL request failed" somewhere, and 500 with the
    internal-error body for every other error. *)
Theorem X11_error_mapping (e : JsError) :
  (occurs_in "GraphQL request failed" (message e) <-> on_error e = bad_gateway)
  /\ (~ occurs_in "GraphQL request failed" (message e)
      <-> on_error e = internal_error).
Proof.
  rewrite on_error_cases, <- includes_occurs.
  destruct (JsString.includes (message e) "GraphQL request failed");
    repeat split; try congruence; try discriminate.
Qed.

(** X12.  An [errors] member that is an empty array is an error all the
    same: the traversal throws with the message "GraphQL errors: []",
    whatever [data] the response carries beside it, and both endpoints
    answer 500 with the internal-error body. *)
Theorem X12_empty_errors_array (authorization : option string) (apiToken : string)
    (pre : list FetchResult) (response : Response.t) (data : GraphQLResponse.t)
    (rest : list FetchResult) :
  apiToken_of authorization = Some apiToken -> apiToken <> EmptyString ->
  Forall continuing pre ->
  Response.ok response = true ->
  Response.json response = inr data ->
  GraphQLResponse.errors data = Some [] ->
  exists sent,
    getRailwayServiceInfo apiToken (pre ++ Resolved response :: rest)
    = (Threw {| name := "Error"; message := "GraphQL errors: []" |}, sent)
    /\ services_status authorization (pre ++ Resolved response :: rest)
       = (Some internal_error, sent)
    /\ (forall url, url <> EmptyString ->
        service_status authorization (Some url) (pre ++ Resolved response :: rest)
        = (Some internal_error, sent)).
Proof.
  intros Htok Hne Hpre Hok Hjson Herr.
  assert (application_errors (Resolved response) []) as Happ
      by (now exists response, data).
  destruct (failing_run apiToken pre (Resolved response) rest _ Hpre
              (fun acc => loop_body_application_errors _ _ acc Happ))
    as (sent & E & _).
  exists sent. split; [exact E|]. split.
  - now rewrite (services_status_authorized _ _ _ Htok Hne), E.
  - intros url Hurl.
    now rewrite (service_status_authorized _ _ _ _ Htok Hne Hurl), E.
Qed.

Lemma X12_empty_errors_array_witness :
  exists sent,
    getRailwayServiceInfo "tok"
      ([Sample.page1] ++ Resolved Sample.data_and_no_errors :: [])
    = (Threw {| name := "Error"; message := "GraphQL errors: []" |}, sent)
    /\ services_status (Some "Bearer tok")
         ([Sample.page1] ++ Resolved Sample.data_and_no_errors :: [])
       = (Some internal_error, sent)
    /\ (forall url, url <> EmptyString ->
        service_status (Some "Bearer tok") (Some url)
          ([Sample.page1] ++ Resolved Sample.data_and_no_errors :: [])
        = (Some internal_error, sent)).
Proof.
  apply (X12_empty_errors_array (Some "Bearer tok") "tok" [Sample.page1]
           Sample.data_and_no_errors Sample.body_empty_errors [] eq_refl).
  - discriminate.
  - constructor; [exact Sample_page1_continuing | constructor].
  - reflexivity.
  - reflexivity.
  - reflexivity.
Defined.

(** ** Records and pages *)

Lemma returning_run apiToken pre fetched rest :
  Forall continuing pre -> stopping fetched ->
  exists sent,
    getRailwayServiceInfo apiToken (pre ++ fetched :: rest)
    = (Returned (script_emits (pre ++ [fetched])), sent)
    /\ length sent = S (length pre).
Proof.
  intros Hpre Hstop. unfold getRailwayServiceInfo.
  destruct (continuing_run apiToken pre Hpre (fetched :: rest) None [] [])
    as (c & reqs & E & Hlen).
  rewrite E, (stopping_step _ _ _ _ _ _ Hstop).
  eexists. split.
  - unfold script_emits. rewrite flat_map_app. simpl. now rewrite app_nil_r.
  - rewrite length_app. simpl. lia.
Qed.

(** X13.  The lookup endpoint searches the records of every page up to and
    including the one at which the traversal stops, and of no later one: it
    answers 200 with the name and status of the first record among them
    whose [staticUrl] is the parameter, and 404 exactly when none of them
    has it. *)
Theorem X13_lookup_searches_fetched_pages (authorization : option string)
    (apiToken url : string) (pre : list FetchResult) (fetched : FetchResult)
    (rest : list FetchResult) :
  apiToken_of authorization = Some apiToken -> apiToken <> EmptyString ->
  url <> EmptyString ->
  Forall continuing pre -> stopping fetched ->
  let found := find_service (script_emits (pre ++ [fetched])) url in
  exists sent,
    length sent = S (length pre)
    /\ service_status authorization (Some url) (pre ++ fetched :: rest)
       = (Some match found with
               | Some service =>
                   {| code := 200;
                      body := JObj [("serviceName", JStr (serviceName service));
                                    ("status", JStr (status service))] |}
               | None => not_found
               end, sent)
    /\ (found = None <->
        forall r, In r (script_emits (pre ++ [fetched])) -> staticUrl r <> url).
Proof.
  intros Htok Hne Hurl Hpre Hstop found.
  destruct (returning_run apiToken pre fetched rest Hpre Hstop) as (sent & E & Hlen).
  exists sent. split; [exact Hlen|]. split.
  - rewrite (service_status_authorized _ _ _ _ Htok Hne Hurl), E.
    fold found. now destruct found.
  - subst found. split.
    + intros Hnone r Hin Heq.
      pose proof (find_none _ _ Hnone r Hin) as H. simpl in H.
      rewrite Heq, String.eqb_refl in H. discriminate.
    + intros Hall. destruct (find_service _ url) as [s|] eqn:F; [|reflexivity].
      apply find_some in F. destruct F as [Hin F]. apply String.eqb_eq in F.
      now destruct (Hall s Hin).
Qed.

Lemma X13_lookup_searches_fetched_pages_witness :
  exists sent,
    length sent = 2
    /\ service_status (Some "Bearer tok") (Some "b.up.railway.app")
         ([Sample.page1] ++ Sample.page2 :: [Sample.page1])
       = (Some match find_service (script_emits ([Sample.page1] ++ [Sample.page2]))
                       "b.up.railway.app" with
               | Some service =>
                   {| code := 200;
                      body := JObj [("serviceName", JStr (serviceName service));
                                    ("status", JStr (status service))] |}
               | None => not_found
               end, sent)
    /\ (find_service (script_emits ([Sample.page1] ++ [Sample.page2]))
          "b.up.railway.app" = None <->
        forall r, In r (script_emits ([Sample.page1] ++ [Sample.page2])) ->
                  staticUrl r <> "b.up.railway.app").
Proof.
  apply (X13_lookup_searches_fetched_pages (Some "Bearer tok") "tok"
           "b.up.railway.app" [Sample.page1] Sample.page2 [Sample.page1]).
  - reflexivity.
  - discriminate.
  - discriminate.
  - constructor; [exact Sample_page1_continuing | constructor].
  - eexists. split; [reflexivity|]. right. discriminate.
Defined.



